(** * WhatsApp service of the CRM backend: a shallow embedding

    The development follows [WhatsappService] of whatsapp.service.ts, in its
    revision with campaigns and auto-reply (the one whose [sendBulkMessage]
    creates a campaign and returns at once): the text helpers of the bulk
    sender, the delay parser, the dispatch of one message, the bulk
    scheduler, the status tracker and the auto-reply matcher.

    JavaScript strings are sequences of UTF-16 code units; [length] of the
    list is the [.length] of the string.  Asynchronous methods are run to
    completion, one [await] after the other, on an explicit state that
    records the tables, the registry of live handles and the order of the
    effects.  The protocol client and the persistence layer are outside the
    service: the first is a record of functions that may throw, the calls of
    the second are taken to succeed. *)

From Stdlib Require Import ZArith NArith QArith Qround List Ascii String Lia Bool.
From stdpp Require Import base option list gmap strings.

Local Open Scope Z_scope.

(** ** Strings *)

Abbreviation jsstring := (list N).

Definition lit (s : string) : jsstring :=
  List.map N_of_ascii (list_ascii_of_string s).

(** JavaScript truthiness of a string and of an optional string. *)
Definition truthy (s : jsstring) : bool :=
  match s with [] => false | _ :: _ => true end.

Definition truthy_opt (o : option jsstring) : bool :=
  match o with Some s => truthy s | None => false end.

Definition is_digit (c : N) : bool := ((48 <=? c) && (c <=? 57))%N.
Definition is_upper (c : N) : bool := ((65 <=? c) && (c <=? 90))%N.
Definition is_lower (c : N) : bool := ((97 <=? c) && (c <=? 122))%N.

(** [\w] of a regular expression without the [u] flag. *)
Definition IsWordChar (c : N) : bool :=
  is_digit c || is_upper c || is_lower c || (c =? 95)%N.

(** Case mapping on the ASCII range.  [String.prototype.toUpperCase] agrees
    with it on every code unit below 128. *)
Definition ascii_upper (c : N) : N := if is_lower c then (c - 32)%N else c.
Definition ascii_lower (c : N) : N := if is_upper c then (c + 32)%N else c.

(** One pattern character against one input character under the [i] flag
    (no [u] flag): the canonical forms are compared, and a code unit of 128
    or more never canonicalises into the ASCII range, so it matches no ASCII
    pattern character.  Every pattern of the service is ASCII. *)
Definition ci_match (p c : N) : bool :=
  ((c <? 128) && (ascii_upper p =? ascii_upper c))%N.

Fixpoint prefix_ci (pat s : jsstring) : bool :=
  match pat, s with
  | [], _ => true
  | _ :: _, [] => false
  | p :: pat', c :: s' => ci_match p c && prefix_ci pat' s'
  end.

(** [s.startsWith(pat)], exact. *)
Fixpoint startsWith (pat s : jsstring) : bool :=
  match pat, s with
  | [], _ => true
  | _ :: _, [] => false
  | p :: pat', c :: s' => (p =? c)%N && startsWith pat' s'
  end.

Definition endsWith (s suffix : jsstring) : bool :=
  startsWith (rev suffix) (rev s).

(** [s.includes(sub)]. *)
Fixpoint includes (s sub : jsstring) : bool :=
  startsWith sub s ||
  match s with
  | [] => false
  | _ :: s' => includes s' sub
  end.

(** [s.split(sep)] for a one-character separator: never the empty array. *)
Fixpoint split (sep : N) (s : jsstring) : list jsstring :=
  match s with
  | [] => [[]]
  | c :: s' =>
      if (c =? sep)%N then [] :: split sep s'
      else match split sep s' with
           | tok :: toks => (c :: tok) :: toks
           | [] => [[c]]
           end
  end.

(** White space and line terminators, as [trim] and [parseInt] strip them. *)
Definition is_space (c : N) : bool :=
  ((9 <=? c) && (c <=? 13) || (c =? 32) || (c =? 160) || (c =? 5760)
   || (8192 <=? c) && (c <=? 8202) || (c =? 8232) || (c =? 8233)
   || (c =? 8239) || (c =? 8287) || (c =? 12288) || (c =? 65279))%N.

Fixpoint trimStart (s : jsstring) : jsstring :=
  match s with
  | c :: s' => if is_space c then trimStart s' else s
  | [] => []
  end.

Definition trim (s : jsstring) : jsstring :=
  rev (trimStart (rev (trimStart s))).

(** ** [parseInt] with no radix argument

    [None] stands for [NaN].  The value is kept exact; the source holds it in
    a double, which is exact up to 2^53. *)

Definition digit_value (radix : Z) (c : N) : option Z :=
  let v :=
    if is_digit c then Z.of_N c - 48
    else if is_lower c then Z.of_N c - 87
    else if is_upper c then Z.of_N c - 55
    else 36 in
  if v <? radix then Some v else None.

Fixpoint parse_digits (radix : Z) (acc : option Z) (s : jsstring) : option Z :=
  match s with
  | [] => acc
  | c :: s' =>
      match digit_value radix c with
      | Some v => parse_digits radix (Some (default 0 acc * radix + v)) s'
      | None => acc
      end
  end.

Definition parseInt (s : jsstring) : option Z :=
  let s := trimStart s in
  let '(sign, s) :=
    match s with
    | 45%N :: s' => (-1, s')
    | 43%N :: s' => (1, s')
    | _ => (1, s)
    end in
  let '(radix, s) :=
    match s with
    | 48%N :: 120%N :: s' => (16, s')
    | 48%N :: 88%N :: s' => (16, s')
    | _ => (10, s)
    end in
  match parse_digits radix None s with
  | Some n => Some (sign * n)
  | None => None
  end.

(** ** The host: random source, clock and library functions

    [Math.random()] is read through an oracle: [MathRandom i] is the value of
    the [i]-th call, a rational in [[0,1)]; a computation threads the number
    of calls made so far, and products with it are exact.
    [new Date().getHours()] is read once per greeting; the model fixes its
    value.  [String.prototype.toLowerCase] (full Unicode) and [path.extname]
    are taken from the host as they are. *)

Class Host := {
  MathRandom : nat -> Q;
  Date_getHours : Z;
  toLowerCase : jsstring -> jsstring;
  path_extname : jsstring -> jsstring;
}.

Definition valid_draw (r : Q) : Prop := (0 <= r)%Q /\ (r < 1)%Q.

Definition Rand (A : Type) : Type := nat -> A * nat.

#[export] Instance Rand_ret : MRet Rand := fun A a i => (a, i).
#[export] Instance Rand_bind : MBind Rand := fun A B f m i =>
  let '(a, j) := m i in f a j.

Definition random `{Host} : Rand Q := fun i => (MathRandom i, S i).

(** [Math.floor(r * n)]. *)
Definition floor_mul (r : Q) (n : Z) : Z := Qfloor (r * inject_Z n).

(** [r > 0.5]. *)
Definition gt_half (r : Q) : bool := negb (Qle_bool r (1 # 2)).

(** ** Delay-range parsing: [getRandomDelay] *)

(** [range.split('-').map((val) => parseInt(val.trim()))]. *)
Definition delay_tokens (range : jsstring) : list (option Z) :=
  List.map (fun val => parseInt (trim val)) (split 45 range).

Definition getRandomDelay `{Host} (range : jsstring) : Rand Z :=
  let toks := delay_tokens range in
  match nth 0 toks None with
  | None => mret 10
  | Some min =>
      let max := default min (nth 1 toks None) in
      let '(min, max) := if min >? max then (max, min) else (min, max) in
      r ← random;
      mret (floor_mul r (max - min + 1) + min)
  end.

(** ** Global replacement of a literal pattern

    [text.replace(/pat/gi, fn)] and [text.replace(/\bpat\b/gi, fn)] for a
    literal [pat].  The scan goes left to right over the original text; at a
    match the callback's result is emitted and the scan resumes after the
    match.  [prev] is the character before the current position (for [\b]),
    [skip] the number of characters of the last match still to pass over. *)

Definition is_word (o : option N) : bool :=
  match o with Some c => IsWordChar c | None => false end.

(** [\b]: exactly one side is a word character. *)
Definition boundary (before after : option N) : bool :=
  xorb (is_word before) (is_word after).

Definition match_at (wb : bool) (pat : jsstring) (prev : option N)
    (s : jsstring) : bool :=
  (if wb then boundary prev (head s) else true)
  && prefix_ci pat s
  && (if wb then boundary (last (take (length pat) s))
                          (head (drop (length pat) s))
      else true).

Fixpoint replace_ci (wb : bool) (pat : jsstring)
    (fn : jsstring -> Rand jsstring) (prev : option N) (skip : nat)
    (s : jsstring) : Rand jsstring :=
  match s with
  | [] => mret []
  | c :: s' =>
      match skip with
      | S k => replace_ci wb pat fn (Some c) k s'
      | O =>
          if match_at wb pat prev s then
            out ← fn (take (length pat) s);
            rest ← replace_ci wb pat fn (Some c) (pred (length pat)) s';
            mret (out ++ rest)
          else
            rest ← replace_ci wb pat fn (Some c) O s';
            mret (c :: rest)
      end
  end.

(** Code units outside the ASCII range: no ASCII pattern character matches
    one, and none is a word character. *)
Definition non_ascii (c : N) : bool := (128 <=? c)%N.


(** The text a callback result of [undefined] is turned into. *)
Definition undefined_text : jsstring := lit "undefined".

(** [arr[i]] for a computed index, as text. *)
Definition js_index (arr : list jsstring) (i : Z) : jsstring :=
  if i <? 0 then undefined_text else nth (Z.to_nat i) arr undefined_text.

(** ** Text variation: [processSpintax] *)

Definition is_brace (c : N) : bool := ((c =? 123) || (c =? 125))%N.

(** The longest run of non-brace characters: [[^{}]+] is greedy. *)
Fixpoint brace_free_run (s : jsstring) : jsstring :=
  match s with
  | c :: s' => if is_brace c then [] else c :: brace_free_run s'
  | [] => []
  end.

(** [/\{([^{}]+)\}/] at the head of [s]: the captured content. *)
Definition spintax_group (s : jsstring) : option jsstring :=
  match s with
  | 123%N :: t =>
      let content := brace_free_run t in
      match content, drop (length content) t with
      | _ :: _, 125%N :: _ => Some content
      | _, _ => None
      end
  | _ => None
  end.

Fixpoint spintax_from `{Host} (skip : nat) (s : jsstring) : Rand jsstring :=
  match s with
  | [] => mret []
  | c :: s' =>
      match skip with
      | S k => spintax_from k s'
      | O =>
          match spintax_group s with
          | Some content =>
              let choices := split 124 content in
              r ← random;
              let chosen :=
                js_index choices (floor_mul r (Z.of_nat (length choices))) in
              rest ← spintax_from (S (length content)) s';
              mret (chosen ++ rest)
          | None =>
              rest ← spintax_from O s';
              mret (c :: rest)
          end
      end
  end.

Definition processSpintax `{Host} (text : jsstring) : Rand jsstring :=
  spintax_from O text.

(** ** Text variation: [addInvisibleUnique] *)

Definition zeroWidthSpace : N := 8203.

Definition addInvisibleUnique `{Host} (text : jsstring) : Rand jsstring :=
  r ← random;
  let randomCount := floor_mul r 10 + 1 in
  mret (text ++ replicate (Z.to_nat randomCount) zeroWidthSpace).

(** ** Text variation: [getTimeBasedGreeting] *)

Definition timeSpecific (hour : Z) : jsstring :=
  if (3 <=? hour) && (hour <? 11) then lit "Pagi"
  else if (11 <=? hour) && (hour <? 15) then lit "Siang"
  else if (15 <=? hour) && (hour <? 18) then lit "Sore"
  else lit "Malam".

Definition greeting_variations (hour : Z) : list jsstring :=
  [ lit "Assalamualaikum, Selamat " ++ timeSpecific hour;
    lit "Selamat " ++ timeSpecific hour;
    lit "Halo, Selamat " ++ timeSpecific hour;
    lit "Assalamualaikum" ].

Definition salam : jsstring := lit "{{salam}}".

Definition getTimeBasedGreeting `{Host} (text : jsstring) : Rand jsstring :=
  let variations := greeting_variations Date_getHours in
  r ← random;
  let selectedGreeting :=
    js_index variations (floor_mul r (Z.of_nat (length variations))) in
  replace_ci false salam (fun _ => mret selectedGreeting) None O text.

(** ** Text variation: [applyIndonesianSlang] *)

Definition replacements : list (jsstring * list jsstring) :=
  [ (lit "yang", [lit "yg"; lit "yang"]);
    (lit "saya", [lit "sy"; lit "aku"; lit "saya"]);
    (lit "tidak", [lit "gak"; lit "enggak"; lit "tak"; lit "tidak"]);
    (lit "bisa", [lit "bs"; lit "bisa"]);
    (lit "terima kasih", [lit "makasih"; lit "trims"; lit "terima kasih"]);
    (lit "karena", [lit "krn"; lit "karna"; lit "karena"]);
    (lit "sudah", [lit "udh"; lit "sdh"; lit "sudah"]);
    (lit "bagaimana", [lit "gimana"; lit "bagaimana"]);
    (lit "kak", [lit "ka"; lit "kak"; lit "kakak"]) ].

(** [chosen.charAt(0).toUpperCase() + chosen.slice(1)]. *)
Definition capitalize (chosen : jsstring) : jsstring :=
  match chosen with
  | c :: rest => ascii_upper c :: rest
  | [] => []
  end.

(** The replacement callback of one dictionary entry.  A match begins with
    an ASCII letter, on which [toUpperCase] is [ascii_upper]. *)
Definition slang_pick `{Host} (variations : list jsstring) (m : jsstring)
    : Rand jsstring :=
  r ← random;
  if gt_half r then mret m
  else
    r' ← random;
    let chosen :=
      js_index variations (floor_mul r' (Z.of_nat (length variations))) in
    mret (match m with
          | c :: _ => if (c =? ascii_upper c)%N then capitalize chosen
                      else chosen
          | [] => chosen
          end).

Fixpoint slang_passes `{Host} (table : list (jsstring * list jsstring))
    (newText : jsstring) : Rand jsstring :=
  match table with
  | [] => mret newText
  | (word, variations) :: table' =>
      newText ← replace_ci true word (slang_pick variations) None O newText;
      slang_passes table' newText
  end.

Definition applyIndonesianSlang `{Host} (text : jsstring) : Rand jsstring :=
  slang_passes replacements text.


(** ** The per-recipient [processor] of the bulk sender *)

Definition processor `{Host} (rawText : jsstring) : Rand jsstring :=
  txt ← getTimeBasedGreeting rawText;
  txt ← processSpintax txt;
  txt ← addInvisibleUnique txt;
  txt ← applyIndonesianSlang txt;
  mret txt.

(** The stage order of the written specification: greeting, spintax, slang,
    uniqueness suffix last.  Kept for comparison with [processor]. *)
Definition processor_spec_order `{Host} (rawText : jsstring) : Rand jsstring :=
  txt ← getTimeBasedGreeting rawText;
  txt ← processSpintax txt;
  txt ← applyIndonesianSlang txt;
  txt ← addInvisibleUnique txt;
  mret txt.

(** ** Data model *)

Inductive MsgStatus := PENDING | SENT | DELIVERED | READ | FAILED.

#[export] Instance MsgStatus_eq_dec : EqDecision MsgStatus.
Proof. solve_decision. Defined.

(** Acknowledgment kinds of the protocol client ([WAMessageStatus]); the
    numbering is the client's: [ERROR] is 0, the only falsy kind. *)
Module WAMessageStatus.
Inductive t := ERROR | PENDING | SERVER_ACK | DELIVERY_ACK | READ | PLAYED.

Definition value (k : t) : Z :=
  match k with
  | ERROR => 0 | PENDING => 1 | SERVER_ACK => 2
  | DELIVERY_ACK => 3 | READ => 4 | PLAYED => 5
  end.
End WAMessageStatus.

Record MessageLog := {
  log_id : nat;
  log_to : jsstring;
  log_body : jsstring;
  log_status : MsgStatus;
  log_waMessageId : option jsstring;
  log_userId : option Z;
  log_campaignId : option nat;
}.

Record WhatsappDevice := {
  device_userId : Z;
  device_status : jsstring;
}.

Record CampaignMessage := {
  campaign_id : nat;
  campaign_title : jsstring;
}.

Record ReplyRule := {
  receive : jsstring;
  reply : jsstring;
}.

(** [traceWords] and [replyMap] are stored as JSON text written by
    [createAutoReply] from validated arrays; the model keeps the arrays that
    [JSON.parse] gives back. *)
Record CampaignAutoReply := {
  traceWords : list jsstring;
  replyMap : list ReplyRule;
  delayReply : jsstring;
}.

(** ** Exceptions *)

Inductive exn :=
  | BadRequestException (message : jsstring)
  | Error (message : jsstring).

Definition exn_message (e : exn) : jsstring :=
  match e with BadRequestException m | Error m => m end.

Definition SessionNotFound : exn :=
  BadRequestException (lit "Sesi tidak ditemukan atau terputus.").
Definition RecipientNotRegistered (to : jsstring) : exn :=
  BadRequestException (lit "Nomor " ++ to ++ lit " tidak terdaftar di WhatsApp.").
Definition MediaTypeRequired : exn :=
  BadRequestException (lit "mediaType wajib diisi jika mengirim file").
Definition NoMediaSource : exn :=
  BadRequestException
    (lit "Tidak ada media file atau URL yang disediakan untuk pengiriman").
Definition UnsupportedMediaType : exn :=
  BadRequestException (lit "Tipe media tidak didukung").

Inductive Res (A : Type) :=
  | Ok (a : A)
  | Throw (e : exn).
Arguments Ok {A} a.
Arguments Throw {A} e.

(** ** The protocol client *)

Record MulterFile := {
  buffer : list N;
  mimetype : jsstring;
  originalname : jsstring;
}.

(** What is handed to the client as media: the uploaded bytes, a remote
    address, or the base64 text that [Buffer.from] decodes. *)
Inductive Media :=
  | UploadedBuffer (bytes : list N)
  | RemoteUrl (url : jsstring)
  | Base64Buffer (base64Data : jsstring).

Inductive AnyMessageContent :=
  | TextContent (text : jsstring)
  | ImageContent (image : Media) (caption : jsstring)
  | VideoContent (video : Media) (caption : jsstring)
  | DocumentContent (document : Media) (mime fileName caption : jsstring).

(** A live handle.  [onWhatsApp] gives the first entry of the answer, if any,
    as its [exists] flag; [sock_sendMessage] gives the id of the sent
    message, if the client reports one.  Each call may throw. *)
Record WASocket := {
  onWhatsApp : jsstring -> Res (option bool);
  sendPresenceUpdate : jsstring -> Res unit;
  sock_sendMessage : jsstring -> AnyMessageContent -> Res (option jsstring);
}.

(** ** The service state and its effects *)

Record BulkMessageData := {
  item_to : jsstring;
  item_message : jsstring;
  item_file : option jsstring;
  item_mediaType : option jsstring;
  item_fileName : option jsstring;
}.

Record BulkTask := {
  task_sessionId : string;
  task_data : list BulkMessageData;
  task_delay : jsstring;
  task_campaignId : nat;
}.

Inductive event :=
  | EvOnWhatsApp (jid : jsstring)
  | EvPresenceUpdate (jid : jsstring)
  | EvSleep (ms : Z)
  | EvLogCreate (id : nat)
  | EvTransmit (jid : jsstring) (content : AnyMessageContent)
  | EvLogUpdate (id : nat) (status : MsgStatus)
  | EvCampaignCreate (id : nat)
  | EvSpawn (campaignId : nat).

(** [clients] is the registry of live handles; the tables are those of the
    persistence layer, rows in creation order; [trace] lists the effects in
    the order they happened; [background] holds the tasks launched and not
    awaited; [rng] counts the calls of [Math.random]. *)
Record World := {
  clients : gmap string WASocket;
  whatsappDevice : gmap string WhatsappDevice;
  messageLog : list MessageLog;
  campaignMessage : list CampaignMessage;
  campaignAutoReply : gmap nat CampaignAutoReply;
  trace : list event;
  background : list BulkTask;
  rng : nat;
}.

Definition set_messageLog (f : list MessageLog -> list MessageLog)
    (w : World) : World :=
  {| clients := clients w; whatsappDevice := whatsappDevice w;
     messageLog := f (messageLog w); campaignMessage := campaignMessage w;
     campaignAutoReply := campaignAutoReply w; trace := trace w;
     background := background w; rng := rng w |}.

Definition set_campaignMessage (f : list CampaignMessage -> list CampaignMessage)
    (w : World) : World :=
  {| clients := clients w; whatsappDevice := whatsappDevice w;
     messageLog := messageLog w; campaignMessage := f (campaignMessage w);
     campaignAutoReply := campaignAutoReply w; trace := trace w;
     background := background w; rng := rng w |}.

Definition set_trace (f : list event -> list event) (w : World) : World :=
  {| clients := clients w; whatsappDevice := whatsappDevice w;
     messageLog := messageLog w; campaignMessage := campaignMessage w;
     campaignAutoReply := campaignAutoReply w; trace := f (trace w);
     background := background w; rng := rng w |}.

Definition set_background (f : list BulkTask -> list BulkTask)
    (w : World) : World :=
  {| clients := clients w; whatsappDevice := whatsappDevice w;
     messageLog := messageLog w; campaignMessage := campaignMessage w;
     campaignAutoReply := campaignAutoReply w; trace := trace w;
     background := f (background w); rng := rng w |}.

Definition set_rng (n : nat) (w : World) : World :=
  {| clients := clients w; whatsappDevice := whatsappDevice w;
     messageLog := messageLog w; campaignMessage := campaignMessage w;
     campaignAutoReply := campaignAutoReply w; trace := trace w;
     background := background w; rng := n |}.

(** Asynchronous methods, run to completion one [await] after the other:
    a result or a thrown exception, and the state they leave. *)
Definition IO (A : Type) : Type := World -> Res A * World.

#[export] Instance IO_ret : MRet IO := fun A a w => (Ok a, w).
#[export] Instance IO_bind : MBind IO := fun A B f m w =>
  match m w with
  | (Ok a, w') => f a w'
  | (Throw e, w') => (Throw e, w')
  end.

Definition throw {A} (e : exn) : IO A := fun w => (Throw e, w).

(** [try { m } catch (error) { h error }]. *)
Definition try_catch {A} (m : IO A) (h : exn -> IO A) : IO A := fun w =>
  match m w with
  | (Ok a, w') => (Ok a, w')
  | (Throw e, w') => h e w'
  end.

Definition emit (ev : event) : IO unit := fun w =>
  (Ok tt, set_trace (fun t => t ++ [ev]) w).

Definition lift_res {A} (r : Res A) : IO A := fun w => (r, w).

(** A call of the protocol client: recorded, then its outcome. *)
Definition call {A} (ev : event) (r : Res A) : IO A :=
  emit ev;; lift_res r.

Definition sleep (ms : Z) : IO unit := emit (EvSleep ms).

Definition liftRand {A} (m : Rand A) : IO A := fun w =>
  let '(a, n) := m (rng w) in (Ok a, set_rng n w).

Definition get_client (sessionId : string) : IO (option WASocket) := fun w =>
  (Ok (clients w !! sessionId), w).

(** *** Persistence calls.  They are taken to succeed: the persistence layer
    is outside the service.  A new row gets the next free number as id. *)

Definition whatsappDevice_findUnique (sessionId : string)
    : IO (option WhatsappDevice) := fun w =>
  (Ok (whatsappDevice w !! sessionId), w).

Definition messageLog_create (to body : jsstring) (status : MsgStatus)
    (user : option Z) (campaign : option nat) : IO MessageLog := fun w =>
  let log := {| log_id := length (messageLog w); log_to := to;
                log_body := body; log_status := status;
                log_waMessageId := None; log_userId := user;
                log_campaignId := campaign |} in
  (Ok log,
   set_trace (fun t => t ++ [EvLogCreate (log_id log)])
     (set_messageLog (fun rows => rows ++ [log]) w)).

(** [data: { status, waMessageId }]: an [undefined] message id leaves the
    column as it is. *)
Definition write_log (status : MsgStatus) (waMessageId : option jsstring)
    (row : MessageLog) : MessageLog :=
  {| log_id := log_id row; log_to := log_to row; log_body := log_body row;
     log_status := status;
     log_waMessageId :=
       match waMessageId with
       | Some i => Some i
       | None => log_waMessageId row
       end;
     log_userId := log_userId row; log_campaignId := log_campaignId row |}.

Definition messageLog_update (id : nat) (status : MsgStatus)
    (waMessageId : option jsstring) : IO unit := fun w =>
  (Ok tt,
   set_trace (fun t => t ++ [EvLogUpdate id status])
     (set_messageLog
        (List.map (fun row =>
           if decide (log_id row = id) then write_log status waMessageId row
           else row)) w)).

Definition campaignMessage_create (title : jsstring) : IO CampaignMessage :=
  fun w =>
  let campaign := {| campaign_id := length (campaignMessage w);
                     campaign_title := title |} in
  (Ok campaign,
   set_trace (fun t => t ++ [EvCampaignCreate (campaign_id campaign)])
     (set_campaignMessage (fun rows => rows ++ [campaign]) w)).

(** ** Dispatch of one message: [sendMessage] *)

Record SendMessageDto := {
  dto_sessionId : string;
  dto_to : jsstring;
  dto_message : jsstring;
  dto_file : option jsstring;
  dto_mediaType : option jsstring;
  dto_fileName : option jsstring;
}.

(** [{ status: 'success', data }] or [{ status: 'failed', error }]. *)
Inductive SendResult :=
  | SendSuccess (data : MessageLog)
  | SendFailed (error : jsstring).

Definition getMimeType `{Host} (fileName : option jsstring) : option jsstring :=
  match fileName with
  | None | Some [] => None
  | Some name =>
      let ext := toLowerCase (path_extname name) in
      if decide (ext = lit ".pdf") then Some (lit "application/pdf")
      else if decide (ext = lit ".doc") then Some (lit "application/msword")
      else if decide (ext = lit ".docx") then Some (lit "application/msword")
      else if decide (ext = lit ".xls") then Some (lit "application/vnd.ms-excel")
      else if decide (ext = lit ".xlsx") then Some (lit "application/vnd.ms-excel")
      else if decide (ext = lit ".zip") then Some (lit "application/zip")
      else if decide (ext = lit ".txt") then Some (lit "text/plain")
      else None
  end.

Definition is_line_terminator (c : N) : bool :=
  ((c =? 10) || (c =? 13) || (c =? 8232) || (c =? 8233))%N.

Fixpoint first_line (s : jsstring) : jsstring :=
  match s with
  | c :: s' => if is_line_terminator c then [] else c :: first_line s'
  | [] => []
  end.

(** What follows the last comma of [s], if [s] has a comma. *)
Fixpoint after_last_comma (s : jsstring) : option jsstring :=
  match s with
  | [] => None
  | c :: s' =>
      match after_last_comma s' with
      | Some r => Some r
      | None => if (c =? 44)%N then Some s' else None
      end
  end.

(** [file.replace(/^data:.*,/, '')]. *)
Definition strip_data_prefix (file : jsstring) : jsstring :=
  if startsWith (lit "data:") file then
    let rest := drop 5 file in
    let line := first_line rest in
    match after_last_comma line with
    | Some r => r ++ drop (length line) rest
    | None => file
    end
  else file.

(** [Math.min(Math.max(message.length * 50, 1000), 4000)], milliseconds. *)
Definition typingDuration (message : jsstring) : Z :=
  Z.min (Z.max (Z.of_nat (length message) * 50) 1000) 4000.

(** The recipient as sent: digits and the user domain, unless an [@] is
    already there. *)
Definition formatTo (to : jsstring) : jsstring :=
  if includes to (lit "@") then to
  else List.filter is_digit to ++ lit "@s.whatsapp.net".

(** The argument of the [sock.sendMessage] call inside [try], or the
    exception thrown while it is put together: plain text without an
    attachment; with one, the media kind must be given, the bytes come from
    the upload, else from the [file] string, and the kind selects the
    content.  (The spec's UnsupportedMediaType covers both [MediaTypeRequired]
    and [UnsupportedMediaType] here.) *)
Definition resolve_content `{Host} (dto : SendMessageDto)
    (mediaFile : option MulterFile) (hasAttachment : bool)
    : Res AnyMessageContent :=
  let message := dto_message dto in
  if negb hasAttachment then Ok (TextContent message)
  else
    match dto_mediaType dto with
    | None | Some [] => Throw MediaTypeRequired
    | Some mediaType =>
        let media :=
          match mediaFile, dto_file dto with
          | Some f, _ => Ok (UploadedBuffer (buffer f), mimetype f)
          | None, Some (c :: file') =>
              let file := c :: file' in
              Ok (if startsWith (lit "http") file then RemoteUrl file
                  else Base64Buffer (strip_data_prefix file),
                  default (lit "application/octet-stream")
                          (getMimeType (dto_fileName dto)))
          | None, _ => Throw NoMediaSource
          end in
        match media with
        | Throw e => Throw e
        | Ok (mediaBuffer, finalMimeType) =>
            let caption := message in
            if decide (mediaType = lit "image") then
              Ok (ImageContent mediaBuffer caption)
            else if decide (mediaType = lit "video") then
              Ok (VideoContent mediaBuffer caption)
            else if decide (mediaType = lit "document") then
              Ok (DocumentContent mediaBuffer finalMimeType
                    (if truthy_opt (dto_fileName dto)
                     then default [] (dto_fileName dto)
                     else match mediaFile with
                          | Some f =>
                              if truthy (originalname f) then originalname f
                              else lit "document.bin"
                          | None => lit "document.bin"
                          end)
                    caption)
            else Throw UnsupportedMediaType
        end
    end.

(** The body of [try] in [sendMessage]: the content is put together, the
    message is transmitted, the row is marked [SENT]; the result carries the
    row object as [create] returned it. *)
Definition transmit `{Host} (sock : WASocket) (dto : SendMessageDto)
    (mediaFile : option MulterFile) (formattedTo : jsstring)
    (hasAttachment : bool) (log : MessageLog) : IO SendResult :=
  content ← lift_res (resolve_content dto mediaFile hasAttachment);
  waMessageId ← call (EvTransmit formattedTo content)
                     (sock_sendMessage sock formattedTo content);
  messageLog_update (log_id log) SENT waMessageId;;
  mret (SendSuccess log).

(** [mediaFile || file]. *)
Definition hasAttachment (dto : SendMessageDto) (mediaFile : option MulterFile)
    : bool :=
  bool_decide (is_Some mediaFile) || truthy_opt (dto_file dto).

(** The [body] column of the new row. *)
Definition pending_body (dto : SendMessageDto) (mediaFile : option MulterFile)
    : jsstring :=
  dto_message dto ++
  (if hasAttachment dto mediaFile
   then lit " [Attachment: " ++ default undefined_text (dto_mediaType dto)
        ++ lit "]"
   else []).

(** [ownerId ? { connect: { id: ownerId } } : undefined], with
    [ownerId = device ? device.userId : null]. *)
Definition owner_link (device : option WhatsappDevice) : option Z :=
  match device_userId <$> device with
  | Some 0 | None => None
  | Some uid => Some uid
  end.

Definition sendMessage `{Host} (dto : SendMessageDto)
    (mediaFile : option MulterFile) (campaignId : option nat)
    : IO SendResult :=
  sock ← get_client (dto_sessionId dto);
  match sock with
  | None => throw SessionNotFound
  | Some sock =>
      let formattedTo := formatTo (dto_to dto) in
      (if endsWith formattedTo (lit "@s.whatsapp.net") then
         result ← call (EvOnWhatsApp formattedTo) (onWhatsApp sock formattedTo);
         match result with
         | Some true => mret tt
         | _ => throw (RecipientNotRegistered (dto_to dto))
         end
       else mret tt);;
      call (EvPresenceUpdate formattedTo) (sendPresenceUpdate sock formattedTo);;
      sleep (typingDuration (dto_message dto));;
      device ← whatsappDevice_findUnique (dto_sessionId dto);
      log ← messageLog_create formattedTo (pending_body dto mediaFile) PENDING
              (owner_link device) campaignId;
      try_catch
        (transmit sock dto mediaFile formattedTo
           (hasAttachment dto mediaFile) log)
        (fun error =>
           messageLog_update (log_id log) FAILED None;;
           mret (SendFailed (exn_message error)))
  end.

(** ** The campaign scheduler *)

Record SendBulkMessageDto := {
  bulk_sessionId : string;
  bulk_data : list BulkMessageData;
  bulk_delay : jsstring;
  bulk_title : jsstring;
}.

Record BulkStarted := {
  started_message : jsstring;
  started_campaignId : nat;
  started_campaignTitle : jsstring;
  started_total : nat;
  started_status : jsstring;
}.

(** One turn of the [for] loop of [processBulkMessageBackground]: the pause
    before every item but the first, then the guarded send. *)
Definition bulk_item `{Host} (sessionId : string) (delay : jsstring)
    (campaignId : nat) (index : nat) (item : BulkMessageData) : IO unit :=
  (if (0 <? index)%nat then
     delayInSeconds ← liftRand (getRandomDelay delay);
     sleep (delayInSeconds * 1000)
   else mret tt);;
  try_catch
    (finalMessageText ← liftRand (processor (item_message item));
     sendMessage
       {| dto_sessionId := sessionId; dto_to := item_to item;
          dto_message := finalMessageText; dto_file := item_file item;
          dto_mediaType := item_mediaType item;
          dto_fileName := item_fileName item |}
       None (Some campaignId);;
     mret tt)
    (fun error => mret tt).

(** The loop, from item [index] on. *)
Fixpoint bulk_loop `{Host} (sessionId : string) (delay : jsstring)
    (campaignId : nat) (index : nat) (data : list BulkMessageData)
    : IO unit :=
  match data with
  | [] => mret tt
  | item :: data' =>
      bulk_item sessionId delay campaignId index item;;
      bulk_loop sessionId delay campaignId (S index) data'
  end.

Definition processBulkMessageBackground `{Host} (sessionId : string)
    (data : list BulkMessageData) (delay : jsstring) (campaignId : nat)
    : IO unit :=
  bulk_loop sessionId delay campaignId O data.

(** The task is started and not awaited: it is left in [background], to be
    run by [run_task].  (In the source the first steps of the task, up to its
    first [await], run before the caller gets its result: the variation of
    the first message and the start of the first protocol query.  They touch
    no table.) *)
Definition spawn (task : BulkTask) : IO unit := fun w =>
  (Ok tt,
   set_trace (fun t => t ++ [EvSpawn (task_campaignId task)])
     (set_background (fun q => q ++ [task]) w)).

Definition run_task `{Host} (task : BulkTask) : IO unit :=
  processBulkMessageBackground (task_sessionId task) (task_data task)
    (task_delay task) (task_campaignId task).

Definition sendBulkMessage (dto : SendBulkMessageDto) : IO BulkStarted :=
  sock ← get_client (bulk_sessionId dto);
  match sock with
  | None => throw SessionNotFound
  | Some _ =>
      campaign ← campaignMessage_create (bulk_title dto);
      spawn {| task_sessionId := bulk_sessionId dto;
               task_data := bulk_data dto;
               task_delay := bulk_delay dto;
               task_campaignId := campaign_id campaign |};;
      mret {| started_message :=
                lit "Proses pengiriman massal telah dimulai di latar belakang";
              started_campaignId := campaign_id campaign;
              started_campaignTitle := campaign_title campaign;
              started_total := length (bulk_data dto);
              started_status := lit "PROCESSING" |}
  end.

(** ** The status tracker: the [messages.update] listener *)

(** [update.key.id]: a string, [null] or [undefined]. *)
Inductive KeyId :=
  | IdUndefined
  | IdNull
  | IdString (id : jsstring).

Record MessageUpdate := {
  key_id : KeyId;
  key_fromMe : bool;
  update_status : option WAMessageStatus.t;
}.

Definition statusString (statusRaw : WAMessageStatus.t) : MsgStatus :=
  match statusRaw with
  | WAMessageStatus.SERVER_ACK => SENT
  | WAMessageStatus.DELIVERY_ACK => DELIVERED
  | WAMessageStatus.READ | WAMessageStatus.PLAYED => READ
  | _ => PENDING
  end.

(** [where: { waMessageId }]: an [undefined] value puts no condition. *)
Definition where_waMessageId (k : KeyId) (row : MessageLog) : bool :=
  match k with
  | IdUndefined => true
  | IdNull => bool_decide (log_waMessageId row = None)
  | IdString id => bool_decide (log_waMessageId row = Some id)
  end.

Definition messageLog_updateMany (k : KeyId) (status : MsgStatus) : IO unit :=
  fun w =>
  (Ok tt,
   set_messageLog
     (List.map (fun row =>
        if where_waMessageId k row then write_log status None row else row))
     w).

Definition status_truthy (s : option WAMessageStatus.t) : bool :=
  match s with
  | Some k => negb (WAMessageStatus.value k =? 0)
  | None => false
  end.

Definition on_message_update (update : MessageUpdate) : IO unit :=
  match update_status update with
  | Some statusRaw =>
      if status_truthy (update_status update) && key_fromMe update then
        messageLog_updateMany (key_id update) (statusString statusRaw)
      else mret tt
  | None => mret tt
  end.

Fixpoint on_messages_update (updates : list MessageUpdate) : IO unit :=
  match updates with
  | [] => mret tt
  | update :: updates' =>
      on_message_update update;; on_messages_update updates'
  end.

(** ** The auto-reply engine: [handleAutoReply] *)

Record InboundMessage := {
  remoteJid : jsstring;
  conversation : option jsstring;
  extendedText : option jsstring;
}.

(** [conversation || extendedTextMessage?.text || '']. *)
Definition textBody (msg : InboundMessage) : jsstring :=
  if truthy_opt (conversation msg) then default [] (conversation msg)
  else if truthy_opt (extendedText msg) then default [] (extendedText msg)
  else [].

(** [traceWords.some(word => lowerText.includes(word.toLowerCase()))]. *)
Definition isMatch `{Host} (traceWords : list jsstring) (lowerText : jsstring)
    : bool :=
  existsb (fun word => includes lowerText (toLowerCase word)) traceWords.

Definition exactMatch `{Host} (replyRules : list ReplyRule)
    (lowerText : jsstring) : option ReplyRule :=
  List.find (fun r => bool_decide (toLowerCase (receive r) = lowerText))
    replyRules.

Definition partialMatch `{Host} (replyRules : list ReplyRule)
    (lowerText : jsstring) : option ReplyRule :=
  List.find (fun r => includes lowerText (toLowerCase (receive r))) replyRules.

(** The value of [replyMessage] after the selection. *)
Definition replyMessage `{Host} (replyRules : list ReplyRule)
    (lowerText : jsstring) : jsstring :=
  match exactMatch replyRules lowerText with
  | Some r => reply r
  | None =>
      match partialMatch replyRules lowerText with
      | Some r => reply r
      | None => []
      end
  end.

(** [findFirst] over the rows sent to [jid] within a campaign, newest first. *)
Definition lastLog (jid : jsstring) (rows : list MessageLog)
    : option MessageLog :=
  last (List.filter
          (fun row => bool_decide (log_to row = jid)
                      && bool_decide (is_Some (log_campaignId row)))
          rows).

Definition autoReply_of (w : World) (row : MessageLog)
    : option CampaignAutoReply :=
  cid ← log_campaignId row;
  _ ← campaignMessage w !! cid;
  campaignAutoReply w !! cid.

Definition handleAutoReply `{Host} (sessionId : string) (msg : InboundMessage)
    : IO unit :=
  let textBody := textBody msg in
  if negb (truthy textBody) then mret tt
  else fun w =>
    match lastLog (remoteJid msg) (messageLog w) ≫= autoReply_of w with
    | None => (Ok tt, w)
    | Some config =>
        let lowerText := toLowerCase textBody in
        if negb (isMatch (traceWords config) lowerText) then (Ok tt, w)
        else
          let replyMessage := replyMessage (replyMap config) lowerText in
          if negb (truthy replyMessage) then (Ok tt, w)
          else
            (delaySeconds ← liftRand (getRandomDelay (delayReply config));
             sleep (delaySeconds * 1000);;
             try_catch
               (sendMessage
                  {| dto_sessionId := sessionId; dto_to := remoteJid msg;
                     dto_message := replyMessage; dto_file := None;
                     dto_mediaType := None; dto_fileName := None |}
                  None None;;
                mret tt)
               (fun error => mret tt)) w
    end.

(** The [messages.upsert] listener. *)
Record Upsert := {
  upsert_type : jsstring;
  upsert_messages : list (bool * option InboundMessage);
}.

Fixpoint upsert_loop `{Host} (sessionId : string)
    (msgs : list (bool * option InboundMessage)) : IO unit :=
  match msgs with
  | [] => mret tt
  | (fromMe, Some msg) :: msgs' =>
      (if negb fromMe then handleAutoReply sessionId msg else mret tt);;
      upsert_loop sessionId msgs'
  | (_, None) :: msgs' => upsert_loop sessionId msgs'
  end.

Definition on_messages_upsert `{Host} (sessionId : string) (m : Upsert)
    : IO unit :=
  if decide (upsert_type m = lit "notify") then
    upsert_loop sessionId (upsert_messages m)
  else mret tt.

(** ** Vocabulary for the course of [sendMessage]

    What the statements below say about a run: the recipient passes the
    registration check, the events of that check, the row that [create]
    returns, and the primary-key discipline of the table. *)

Definition is_canonical (to : jsstring) : bool :=
  endsWith (formatTo to) (lit "@s.whatsapp.net").

Definition registered (sock : WASocket) (to : jsstring) : Prop :=
  is_canonical to = true -> onWhatsApp sock (formatTo to) = Ok (Some true).

Definition check_events (to : jsstring) : list event :=
  if is_canonical to then [EvOnWhatsApp (formatTo to)] else [].

Definition pending_log (w : World) (dto : SendMessageDto)
    (mediaFile : option MulterFile) (campaignId : option nat) : MessageLog :=
  {| log_id := length (messageLog w);
     log_to := formatTo (dto_to dto);
     log_body := pending_body dto mediaFile;
     log_status := PENDING;
     log_waMessageId := None;
     log_userId := owner_link (whatsappDevice w !! dto_sessionId dto);
     log_campaignId := campaignId |}.

(** The effects of a validated send up to the creation of the row. *)
Definition prefix_events (dto : SendMessageDto) (n : nat) : list event :=
  check_events (dto_to dto)
  ++ [EvPresenceUpdate (formatTo (dto_to dto));
      EvSleep (typingDuration (dto_message dto));
      EvLogCreate n].

(** The state a validated send leaves: the new row, written once more with
    [status] and [waMessageId]; [evs] are the events between the creation of
    the row and that last write. *)
Definition settled (w : World) (dto : SendMessageDto)
    (mediaFile : option MulterFile) (campaignId : option nat)
    (status : MsgStatus) (waMessageId : option jsstring) (evs : list event)
    : World :=
  let log := pending_log w dto mediaFile campaignId in
  set_trace
    (fun t => t ++ prefix_events dto (log_id log) ++ evs
                ++ [EvLogUpdate (log_id log) status])
    (set_messageLog
       (fun rows =>
          List.map (fun row =>
                      if decide (log_id row = log_id log)
                      then write_log status waMessageId row else row)
                   (rows ++ [log]))
       w).

(** Rows carry their position as id: ids are unique and the next free id is
    the number of rows. *)
Fixpoint numbered_from (n : nat) (rows : list MessageLog) : bool :=
  match rows with
  | [] => true
  | row :: rows' => (log_id row =? n)%nat && numbered_from (S n) rows'
  end.

Definition is_sleep (ev : event) : bool :=
  match ev with EvSleep _ => true | _ => false end.
Definition is_log_create (ev : event) : bool :=
  match ev with EvLogCreate _ => true | _ => false end.
Definition is_transmit (ev : event) : bool :=
  match ev with EvTransmit _ _ => true | _ => false end.

(** Position of the first event of a kind in a trace. *)
Fixpoint event_index (p : event -> bool) (t : list event) : option nat :=
  match t with
  | [] => None
  | ev :: t' => if p ev then Some O else S <$> event_index p t'
  end.

(** ** Sample data: a client, a state with one live session, a request, and
    a host with a given sequence of [Math.random] values *)

Definition sock_of (registration : option bool)
    (sent : Res (option jsstring)) : WASocket :=
  {| onWhatsApp := fun _ => Ok registration;
     sendPresenceUpdate := fun _ => Ok tt;
     sock_sendMessage := fun _ _ => sent |}.

(** One live session, [s1], owned by user 7, and empty tables. *)
Definition world_of (sock : WASocket) : World :=
  {| clients := {[ "s1"%string := sock ]};
     whatsappDevice :=
       {[ "s1"%string := {| device_userId := 7;
                            device_status := lit "CONNECTED" |} ]};
     messageLog := [];
     campaignMessage := [];
     campaignAutoReply := ∅;
     trace := [];
     background := [];
     rng := O |}.

Definition dto_of (to message : string) (file mediaType : option string)
    : SendMessageDto :=
  {| dto_sessionId := "s1"%string;
     dto_to := lit to;
     dto_message := lit message;
     dto_file := lit <$> file;
     dto_mediaType := lit <$> mediaType;
     dto_fileName := None |}.

Definition host_of (draws : list Q) : Host :=
  {| MathRandom := fun i => nth i draws 0%Q;
     Date_getHours := 9;
     toLowerCase := List.map ascii_lower;
     path_extname := fun name => name |}.

(** * Properties *)

(** ** Arithmetic of the random source *)

Lemma floor_mul_range (r : Q) (n : Z) :
  valid_draw r -> 0 < n -> 0 <= floor_mul r n < n.
Proof.
  intros [Hlo Hhi] Hn. unfold floor_mul. split.
  - change 0 with (Qfloor 0). apply Qfloor_resp_le.
    apply Qmult_le_0_compat; [exact Hlo|].
    change 0%Q with (inject_Z 0). rewrite <- Zle_Qle. lia.
  - rewrite Zlt_Qlt. eapply Qle_lt_trans; [apply Qfloor_le|].
    rewrite <- (Qmult_1_l (inject_Z n)) at 2.
    apply Qmult_lt_compat_r; [|exact Hhi].
    change 0%Q with (inject_Z 0). rewrite <- Zlt_Qlt. exact Hn.
Qed.


(** ** Delay-range parsing *)

Arguments floor_mul : simpl never.

Ltac rand_unfold :=
  unfold mbind, mret, Rand_bind, Rand_ret, random in *; cbn beta iota in *.







(** ** Status tracker *)

Lemma where_write_log (k : KeyId) (status : MsgStatus) (row : MessageLog) :
  where_waMessageId k (write_log status None row) = where_waMessageId k row.
Proof. destruct k; reflexivity. Qed.

Lemma updateMany_idempotent (k : KeyId) (status : MsgStatus) (w : World) :
  (messageLog_updateMany k status (messageLog_updateMany k status w).2).2
  = (messageLog_updateMany k status w).2.
Proof.
  unfold messageLog_updateMany, set_messageLog. simpl. f_equal.
  rewrite List.map_map. apply List.map_ext. intros row.
  destruct (where_waMessageId k row) eqn:E.
  - now rewrite where_write_log, E.
  - now rewrite E.
Qed.

(** C9, idempotence of the status tracker: handling the same acknowledgment
    of one message id a second time leaves the state, hence the status of
    every row, as the first handling left it; the status written depends on
    the acknowledgment kind alone: SERVER_ACK gives SENT, DELIVERY_ACK gives
    DELIVERED, READ and PLAYED give READ, any other kind PENDING. *)
Theorem status_tracker_idempotent (update : MessageUpdate) (w : World) :
  (on_message_update update (on_message_update update w).2).2
    = (on_message_update update w).2
  /\ (forall row kind,
        update_status update = Some kind ->
        key_fromMe update = true ->
        kind <> WAMessageStatus.ERROR ->
        row ∈ messageLog (on_message_update update w).2 ->
        where_waMessageId (key_id update) row = true ->
        log_status row = statusString kind)
  /\ statusString WAMessageStatus.SERVER_ACK = SENT
  /\ statusString WAMessageStatus.DELIVERY_ACK = DELIVERED
  /\ statusString WAMessageStatus.READ = READ
  /\ statusString WAMessageStatus.PLAYED = READ
  /\ statusString WAMessageStatus.PENDING = PENDING
  /\ statusString WAMessageStatus.ERROR = PENDING.
Proof.
  split; [|split; [|repeat split]].
  - unfold on_message_update.
    destruct (update_status update) as [kind|]; [|reflexivity].
    destruct (status_truthy (Some kind) && key_fromMe update); [|reflexivity].
    apply updateMany_idempotent.
  - intros row kind Hk Hme Hne Hin Hwhere. unfold on_message_update in Hin.
    rewrite Hk, Hme in Hin.
    assert (Ht : status_truthy (Some kind) = true) by (destruct kind; easy).
    rewrite Ht in Hin. simpl in Hin.
    apply list_elem_of_In, List.in_map_iff in Hin as (row0 & Hrow & _).
    destruct (where_waMessageId (key_id update) row0) eqn:E.
    + now subst row.
    + subst row. congruence.
Qed.

(** A DELIVERY_ACK for a stored message id, handled twice. *)
Lemma status_tracker_idempotent_witness :
  let row := {| log_id := 0; log_to := lit "0812@s.whatsapp.net";
                log_body := lit "Halo"; log_status := SENT;
                log_waMessageId := Some (lit "3EB0"); log_userId := Some 7;
                log_campaignId := None |} in
  let w := set_messageLog (fun _ => [row])
             (world_of (sock_of (Some true) (Ok None))) in
  let update := {| key_id := IdString (lit "3EB0"); key_fromMe := true;
                   update_status := Some WAMessageStatus.DELIVERY_ACK |} in
  (on_message_update update (on_message_update update w).2).2
    = (on_message_update update w).2
  /\ log_status (write_log DELIVERED None row) = DELIVERED.
Proof.
  intros row w update. split.
  - apply (proj1 (status_tracker_idempotent update w)).
  - apply (proj1 (proj2 (status_tracker_idempotent update w))
             (write_log DELIVERED None row) WAMessageStatus.DELIVERY_ACK);
      [reflexivity|reflexivity|discriminate| |reflexivity].
    apply list_elem_of_In. left. reflexivity.
Defined.

(** ** Auto-reply selection *)

Lemma find_first {A} (p : A -> bool) (l1 l2 : list A) (x : A) :
  (forall y, In y l1 -> p y = false) -> p x = true ->
  List.find p (l1 ++ x :: l2) = Some x.
Proof.
  intros Hl1 Hx. induction l1 as [|y l1 IH]; simpl.
  - now rewrite Hx.
  - rewrite (Hl1 y) by now left. apply IH. intros z Hz. apply Hl1. now right.
Qed.

Lemma find_split {A} (p : A -> bool) (l : list A) (x : A) :
  List.find p l = Some x ->
  exists l1 l2, l = l1 ++ x :: l2 /\ p x = true
                /\ forall y, In y l1 -> p y = false.
Proof.
  induction l as [|y l IH]; simpl; [discriminate|].
  destruct (p y) eqn:Hy.
  - intros [= ->]. exists [], l. repeat split; [exact Hy|]. intros ? [].
  - intros Hf. destruct (IH Hf) as (l1 & l2 & -> & Hx & Hl1).
    exists (y :: l1), l2. repeat split; [exact Hx|].
    intros z [<-|Hz]; [exact Hy|now apply Hl1].
Qed.

Lemma find_none_iff {A} (p : A -> bool) (l : list A) :
  List.find p l = None <-> forall y, In y l -> p y = false.
Proof.
  split; [apply List.find_none|].
  induction l as [|y l IH]; simpl; [reflexivity|]. intros Hl.
  rewrite (Hl y) by now left. apply IH. intros z Hz. apply Hl. now right.
Qed.

Lemma handleAutoReply_no_trigger `{Host} (sessionId : string)
    (msg : InboundMessage) (w : World) :
  (forall config,
      lastLog (remoteJid msg) (messageLog w) ≫= autoReply_of w = Some config ->
      isMatch (traceWords config) (toLowerCase (textBody msg)) = false) ->
  handleAutoReply sessionId msg w = (Ok tt, w).
Proof.
  intros Hno. unfold handleAutoReply.
  destruct (truthy (textBody msg)); [|reflexivity]. simpl.
  destruct (lastLog _ _ ≫= autoReply_of w) as [config|]; [|reflexivity].
  now rewrite (Hno config eq_refl).
Qed.

Lemma handleAutoReply_no_reply `{Host} (sessionId : string)
    (msg : InboundMessage) (w : World) :
  (forall config,
      lastLog (remoteJid msg) (messageLog w) ≫= autoReply_of w = Some config ->
      replyMessage (replyMap config) (toLowerCase (textBody msg)) = []) ->
  handleAutoReply sessionId msg w = (Ok tt, w).
Proof.
  intros Hno. unfold handleAutoReply.
  destruct (truthy (textBody msg)); [|reflexivity]. simpl.
  destruct (lastLog _ _ ≫= autoReply_of w) as [config|]; [|reflexivity].
  destruct (isMatch _ _); [|reflexivity]. simpl.
  now rewrite (Hno config eq_refl).
Qed.

(** C8, reply selection for a triggered inbound text.  With [lowerText] the
    lower-cased inbound text: (1) if some rule's match text, lower-cased,
    equals it, the reply of the first such rule is selected; (2) otherwise the
    reply of the first rule, in configured order, whose lower-cased match text
    is contained in it; (3) if no rule matches either way the selection is
    empty and the handler does nothing; (4) with trigger words halo and hai
    and the inbound text hello the handler does nothing at all, whatever the
    rules (lower-casing taken as the ASCII one on ASCII text). *)
Theorem auto_reply_selection `{Host} (rules : list ReplyRule) (text : jsstring) :
  let lowerText := toLowerCase text in
  let exact r := toLowerCase (receive r) = lowerText in
  let partial r := includes lowerText (toLowerCase (receive r)) = true in
  ((exists r, In r rules /\ exact r) ->
     exists l1 r l2, rules = l1 ++ r :: l2 /\ exact r
       /\ (forall r', In r' l1 -> ~ exact r')
       /\ replyMessage rules lowerText = reply r)
  /\ ((forall r, In r rules -> ~ exact r) ->
      (exists r, In r rules /\ partial r) ->
      exists l1 r l2, rules = l1 ++ r :: l2 /\ partial r
        /\ (forall r', In r' l1 -> ~ partial r')
        /\ replyMessage rules lowerText = reply r)
  /\ ((forall r, In r rules -> ~ exact r /\ ~ partial r) ->
      replyMessage rules lowerText = []
      /\ forall sessionId msg w config,
           textBody msg = text ->
           lastLog (remoteJid msg) (messageLog w) ≫= autoReply_of w
             = Some config ->
           replyMap config = rules ->
           handleAutoReply sessionId msg w = (Ok tt, w))
  /\ ((forall s, Forall (fun c => (c < 128)%N) s ->
                 toLowerCase s = List.map ascii_lower s) ->
      isMatch [lit "halo"; lit "hai"] (toLowerCase (lit "hello")) = false
      /\ forall sessionId msg w config,
           textBody msg = lit "hello" ->
           lastLog (remoteJid msg) (messageLog w) ≫= autoReply_of w
             = Some config ->
           traceWords config = [lit "halo"; lit "hai"] ->
           handleAutoReply sessionId msg w = (Ok tt, w)).
Proof.
  intros lowerText exact partial.
  assert (Hexact : forall r, exact r <->
            bool_decide (toLowerCase (receive r) = lowerText) = true).
  { intros r. unfold exact. now rewrite bool_decide_eq_true. }
  assert (Hnone : (forall r, In r rules -> ~ exact r) ->
            exactMatch rules lowerText = None).
  { intros Hno. apply find_none_iff. intros r Hr.
    apply bool_decide_eq_false. now apply Hno. }
  repeat apply conj.
  - intros (r0 & Hin & Hr0). unfold replyMessage.
    destruct (exactMatch rules lowerText) as [r|] eqn:E.
    + apply find_split in E as (l1 & l2 & -> & Hr & Hl1).
      exists l1, r, l2.
      refine (conj eq_refl (conj _ (conj _ eq_refl))); [now apply Hexact|].
      intros r' Hr' Hx. apply Hexact in Hx. rewrite (Hl1 r' Hr') in Hx.
      discriminate.
    + exfalso. pose proof (proj1 (find_none_iff _ _) E r0 Hin) as Hf.
      apply Hexact in Hr0. simpl in Hf. congruence.
  - intros Hno (r0 & Hin & Hr0). unfold replyMessage. rewrite (Hnone Hno).
    destruct (partialMatch rules lowerText) as [r|] eqn:E.
    + apply find_split in E as (l1 & l2 & -> & Hr & Hl1).
      exists l1, r, l2.
      refine (conj eq_refl (conj Hr (conj _ eq_refl))).
      intros r' Hr' Hx. unfold partial in Hx. rewrite (Hl1 r' Hr') in Hx.
      discriminate.
    + exfalso. pose proof (proj1 (find_none_iff _ _) E r0 Hin) as Hf.
      simpl in Hf. unfold partial in Hr0. congruence.
  - intros Hno.
    assert (Hempty : replyMessage rules lowerText = []).
    { unfold replyMessage. rewrite Hnone by (intros r Hr; apply (Hno r Hr)).
      replace (partialMatch rules lowerText) with (@None ReplyRule);
        [reflexivity|].
      symmetry. apply find_none_iff. intros r Hr.
      apply not_true_is_false. apply (Hno r Hr). }
    split; [exact Hempty|].
    intros sessionId msg w config Htext Hcfg Hrules.
    apply handleAutoReply_no_reply. intros config' Hcfg'.
    rewrite Hcfg in Hcfg'. injection Hcfg' as <-.
    rewrite Hrules, Htext. exact Hempty.
  - intros Hascii.
    assert (Hm : isMatch [lit "halo"; lit "hai"] (toLowerCase (lit "hello"))
                 = false).
    { unfold isMatch, existsb.
      rewrite !Hascii by (vm_compute; repeat constructor). reflexivity. }
    split; [exact Hm|].
    intros sessionId msg w config Htext Hcfg Hwords.
    apply handleAutoReply_no_trigger. intros config' Hcfg'.
    rewrite Hcfg in Hcfg'. injection Hcfg' as <-.
    rewrite Hwords, Htext. exact Hm.
Qed.

(** Two rules and the inbound text HALO; the triggers halo, hai and the
    inbound text hello. *)
Lemma auto_reply_selection_witness :
  let H := host_of [] in
  let harga := {| receive := lit "harga"; reply := lit "Rp 100.000" |} in
  let halo := {| receive := lit "Halo"; reply := lit "Hai juga" |} in
  let rules := [harga; halo] in
  (exists l1 r l2,
     rules = l1 ++ r :: l2
     /\ toLowerCase (receive r) = toLowerCase (lit "HALO")
     /\ (forall r', In r' l1 ->
           toLowerCase (receive r') <> toLowerCase (lit "HALO"))
     /\ replyMessage rules (toLowerCase (lit "HALO")) = reply r)
  /\ isMatch [lit "halo"; lit "hai"] (toLowerCase (lit "hello")) = false.
Proof.
  intros H harga halo rules. split.
  - apply (proj1 (@auto_reply_selection H rules (lit "HALO"))).
    exists halo. split; [right; left; reflexivity|reflexivity].
  - apply (proj2 (proj2 (proj2 (@auto_reply_selection H rules (lit "HALO"))))).
    intros s _. reflexivity.
Defined.

(** ** Dispatch of one message *)

Arguments formatTo : simpl never.
Arguments typingDuration : simpl never.
Arguments lit : simpl never.
Arguments endsWith : simpl never.
Arguments pending_body : simpl never.
Arguments owner_link : simpl never.
Arguments hasAttachment : simpl never.
Arguments resolve_content : simpl never.
Arguments exn_message : simpl never.

Ltac io_unfold :=
  unfold mbind, mret, IO_bind, IO_ret, call, lift_res, sleep, emit, throw,
    get_client, whatsappDevice_findUnique, messageLog_create,
    messageLog_update, try_catch in *;
  simpl in *.

Lemma world_eta (w1 w2 : World) :
  clients w1 = clients w2 -> whatsappDevice w1 = whatsappDevice w2 ->
  messageLog w1 = messageLog w2 -> campaignMessage w1 = campaignMessage w2 ->
  campaignAutoReply w1 = campaignAutoReply w2 -> trace w1 = trace w2 ->
  background w1 = background w2 -> rng w1 = rng w2 -> w1 = w2.
Proof. destruct w1, w2; simpl; intros; subst; reflexivity. Qed.

(** The whole course of a validated send, by the outcome of putting the
    content together and of the transmit call. *)
Lemma sendMessage_run `{Host} (dto : SendMessageDto)
    (mediaFile : option MulterFile) (campaignId : option nat) (w : World)
    (sock : WASocket) :
  clients w !! dto_sessionId dto = Some sock ->
  registered sock (dto_to dto) ->
  sendPresenceUpdate sock (formatTo (dto_to dto)) = Ok tt ->
  sendMessage dto mediaFile campaignId w =
    let jid := formatTo (dto_to dto) in
    match resolve_content dto mediaFile (hasAttachment dto mediaFile) with
    | Throw e =>
        (Ok (SendFailed (exn_message e)),
         settled w dto mediaFile campaignId FAILED None [])
    | Ok content =>
        match sock_sendMessage sock jid content with
        | Ok waMessageId =>
            (Ok (SendSuccess (pending_log w dto mediaFile campaignId)),
             settled w dto mediaFile campaignId SENT waMessageId
               [EvTransmit jid content])
        | Throw e =>
            (Ok (SendFailed (exn_message e)),
             settled w dto mediaFile campaignId FAILED None
               [EvTransmit jid content])
        end
    end.
Proof.
  intros Hc Hreg Hp. unfold sendMessage, transmit, settled, prefix_events,
    check_events, registered, is_canonical in *.
  io_unfold. rewrite Hc.
  destruct (endsWith (formatTo (dto_to dto)) (lit "@s.whatsapp.net")) eqn:He;
    io_unfold; [rewrite (Hreg eq_refl)|]; io_unfold; rewrite Hp; io_unfold;
    (destruct (resolve_content dto mediaFile (hasAttachment dto mediaFile))
       as [content|e]; io_unfold;
     [destruct (sock_sendMessage sock (formatTo (dto_to dto)) content)
        as [mid|e]; io_unfold|]);
    (f_equal; apply world_eta; simpl; try reflexivity;
     rewrite <- ?app_assoc; reflexivity).
Qed.

Lemma update_new_row_from (n : nat) (rows : list MessageLog) (log : MessageLog)
    (status : MsgStatus) (waMessageId : option jsstring) :
  numbered_from n rows = true -> log_id log = (n + length rows)%nat ->
  List.map (fun row => if decide (log_id row = log_id log)
                       then write_log status waMessageId row else row)
           (rows ++ [log])
  = rows ++ [write_log status waMessageId log].
Proof.
  revert n. induction rows as [|row rows IH]; intros n Hnum Hid; simpl.
  - now rewrite decide_True.
  - simpl in Hnum. apply andb_true_iff in Hnum as [Hrow Hrows].
    apply Nat.eqb_eq in Hrow. simpl in Hid.
    rewrite decide_False by lia. f_equal. apply (IH (S n)); [exact Hrows|lia].
Qed.

Lemma settled_rows (w : World) (dto : SendMessageDto)
    (mediaFile : option MulterFile) (campaignId : option nat)
    (status : MsgStatus) (waMessageId : option jsstring) (evs : list event) :
  numbered_from 0 (messageLog w) = true ->
  messageLog (settled w dto mediaFile campaignId status waMessageId evs)
  = messageLog w
    ++ [write_log status waMessageId
          (pending_log w dto mediaFile campaignId)].
Proof.
  intros Hnum. unfold settled. simpl.
  now apply (update_new_row_from 0 (messageLog w)
               (pending_log w dto mediaFile campaignId)).
Qed.


Lemma typingDuration_clamped (message : jsstring) :
  1000 <= typingDuration message <= 4000
  /\ (20 <= Z.of_nat (length message) <= 80 ->
      typingDuration message = Z.of_nat (length message) * 50).
Proof. unfold typingDuration. lia. Qed.

(** A send that does not get past the checks throws, and the table of rows
    is as it was. *)
Lemma sendMessage_rejected `{Host} (dto : SendMessageDto)
    (mediaFile : option MulterFile) (campaignId : option nat) (w : World) :
  match clients w !! dto_sessionId dto with
  | None => sendMessage dto mediaFile campaignId w = (Throw SessionNotFound, w)
  | Some sock =>
      let jid := formatTo (dto_to dto) in
      (is_canonical (dto_to dto) = true ->
       match onWhatsApp sock jid with
       | Ok (Some true) => True
       | Ok _ =>
           sendMessage dto mediaFile campaignId w
           = (Throw (RecipientNotRegistered (dto_to dto)),
              set_trace (fun t => t ++ [EvOnWhatsApp jid]) w)
       | Throw e =>
           sendMessage dto mediaFile campaignId w
           = (Throw e, set_trace (fun t => t ++ [EvOnWhatsApp jid]) w)
       end)
      /\ (registered sock (dto_to dto) ->
          forall e, sendPresenceUpdate sock jid = Throw e ->
          sendMessage dto mediaFile campaignId w
          = (Throw e,
             set_trace (fun t => t ++ check_events (dto_to dto)
                                   ++ [EvPresenceUpdate jid]) w))
  end.
Proof.
  unfold sendMessage, registered, check_events, is_canonical. io_unfold.
  destruct (clients w !! dto_sessionId dto) as [sock|]; [|reflexivity].
  split.
  - intros He. rewrite He. io_unfold.
    destruct (onWhatsApp sock (formatTo (dto_to dto))) as [[[|]|]|e];
      io_unfold; try reflexivity; exact I.
  - intros Hreg e Hp.
    destruct (endsWith (formatTo (dto_to dto)) (lit "@s.whatsapp.net"));
      io_unfold; [rewrite (Hreg eq_refl)|]; io_unfold; rewrite Hp;
      f_equal; apply world_eta; simpl; try reflexivity;
      rewrite <- ?app_assoc; reflexivity.
Qed.

(** Whenever [sendMessage] reports success, the checks passed, the content
    was put together, the transmit call returned, and the state is the
    settled one. *)
Lemma sendMessage_success_inv `{Host} (dto : SendMessageDto)
    (mediaFile : option MulterFile) (campaignId : option nat) (w w' : World)
    (data : MessageLog) :
  sendMessage dto mediaFile campaignId w = (Ok (SendSuccess data), w') ->
  exists sock content waMessageId,
    clients w !! dto_sessionId dto = Some sock
    /\ resolve_content dto mediaFile (hasAttachment dto mediaFile) = Ok content
    /\ sock_sendMessage sock (formatTo (dto_to dto)) content = Ok waMessageId
    /\ data = pending_log w dto mediaFile campaignId
    /\ w' = settled w dto mediaFile campaignId SENT waMessageId
              [EvTransmit (formatTo (dto_to dto)) content].
Proof.
  intros Hrun.
  pose proof (sendMessage_rejected dto mediaFile campaignId w) as Hrej.
  pose proof (sendMessage_run dto mediaFile campaignId w) as Hok.
  destruct (clients w !! dto_sessionId dto) as [sock|]; [|congruence].
  specialize (Hok sock eq_refl). destruct Hrej as [Hreg Hpres].
  assert (Hregistered : registered sock (dto_to dto)).
  { intros He. specialize (Hreg He).
    destruct (onWhatsApp sock (formatTo (dto_to dto))) as [[[|]|]|e];
      congruence. }
  specialize (Hok Hregistered). specialize (Hpres Hregistered).
  destruct (sendPresenceUpdate sock (formatTo (dto_to dto))) as [[]|e];
    [|specialize (Hpres e eq_refl); congruence].
  specialize (Hok eq_refl). rewrite Hok in Hrun. cbn zeta in Hrun.
  destruct (resolve_content dto mediaFile (hasAttachment dto mediaFile))
    as [content|e] eqn:Hcontent; [|discriminate].
  destruct (sock_sendMessage sock (formatTo (dto_to dto)) content)
    as [mid|e] eqn:Hsent; [|discriminate].
  injection Hrun as <- <-. exists sock, content, mid. auto.
Qed.

(** ** The bulk loop goes on after any item *)

Lemma bulk_item_ok `{Host} (sessionId : string) (delay : jsstring)
    (campaignId index : nat) (item : BulkMessageData) (w : World) :
  (bulk_item sessionId delay campaignId index item w).1 = Ok tt.
Proof.
  unfold bulk_item, liftRand. io_unfold.
  destruct (0 <? index)%nat; simpl.
  - destruct (getRandomDelay delay (rng w)) as [d n]. simpl.
    destruct (processor _ _) as [txt n']. simpl.
    destruct (sendMessage _ _ _ _) as [[r|e] w']; reflexivity.
  - destruct (processor _ _) as [txt n']. simpl.
    destruct (sendMessage _ _ _ _) as [[r|e] w']; reflexivity.
Qed.

Lemma bulk_loop_app `{Host} (sessionId : string) (delay : jsstring)
    (campaignId index : nat) (done rest : list BulkMessageData) (w : World) :
  bulk_loop sessionId delay campaignId index (done ++ rest) w
  = bulk_loop sessionId delay campaignId (index + length done) rest
      (bulk_loop sessionId delay campaignId index done w).2.
Proof.
  revert index w. induction done as [|item done IH]; intros index w; simpl.
  - now rewrite Nat.add_0_r.
  - unfold mbind, IO_bind.
    pose proof (bulk_item_ok sessionId delay campaignId index item w) as Hok.
    destruct (bulk_item sessionId delay campaignId index item w) as [r w1].
    simpl in Hok. subst r. rewrite IH.
    now replace (index + S (length done))%nat with (S index + length done)%nat
      by lia.
Qed.

Lemma bulk_loop_ok `{Host} (sessionId : string) (delay : jsstring)
    (campaignId index : nat) (data : list BulkMessageData) (w : World) :
  (bulk_loop sessionId delay campaignId index data w).1 = Ok tt.
Proof.
  revert index w. induction data as [|item data IH]; intros index w; simpl.
  - reflexivity.
  - unfold mbind, IO_bind.
    pose proof (bulk_item_ok sessionId delay campaignId index item w) as Hok.
    destruct (bulk_item sessionId delay campaignId index item w) as [r w1].
    simpl in Hok. subst r. apply IH.
Qed.

(** ** Claims on the dispatch of one message *)




(** C3, as the code orders the effects of a validated send: registration
    query (canonical recipients), presence update, the typing delay, then the
    creation of the PENDING row, then the transmit call, then the update of
    the row.  The delay is 50 ms per character of the message, clamped to
    [1000, 4000] ms; it comes before the row is created, and before the
    transmit call. *)
Theorem typing_delay_order `{Host} (dto : SendMessageDto)
    (mediaFile : option MulterFile) (campaignId : option nat) (w : World)
    (sock : WASocket) (content : AnyMessageContent) :
  let jid := formatTo (dto_to dto) in
  let d := typingDuration (dto_message dto) in
  let n := length (messageLog w) in
  clients w !! dto_sessionId dto = Some sock ->
  registered sock (dto_to dto) ->
  sendPresenceUpdate sock jid = Ok tt ->
  resolve_content dto mediaFile (hasAttachment dto mediaFile) = Ok content ->
  (exists res w' status,
     sendMessage dto mediaFile campaignId w = (res, w')
     /\ trace w'
        = trace w ++ check_events (dto_to dto)
            ++ [EvPresenceUpdate jid; EvSleep d; EvLogCreate n;
                EvTransmit jid content; EvLogUpdate n status])
  /\ 1000 <= d <= 4000
  /\ (20 <= Z.of_nat (length (dto_message dto)) <= 80 ->
      d = Z.of_nat (length (dto_message dto)) * 50).
Proof.
  intros jid d n Hc Hreg Hp Hcontent.
  split; [|apply typingDuration_clamped].
  rewrite (sendMessage_run dto mediaFile campaignId w sock Hc Hreg Hp).
  cbn zeta. rewrite Hcontent. fold jid.
  destruct (sock_sendMessage sock jid content) as [mid|e];
    do 3 eexists; (split; [reflexivity|]);
    unfold settled, prefix_events; simpl; rewrite <- !app_assoc; reflexivity.
Qed.

(** A text message of four characters: the delay is the lower bound. *)
Lemma typing_delay_order_witness :
  let H := host_of [] in
  let w := world_of (sock_of (Some true) (Ok (Some (lit "3EB0")))) in
  let dto := dto_of "0812-3456" "Halo" None None in
  let jid := formatTo (dto_to dto) in
  (exists res w' status,
     sendMessage dto None None w = (res, w')
     /\ trace w'
        = trace w ++ check_events (dto_to dto)
            ++ [EvPresenceUpdate jid; EvSleep (typingDuration (dto_message dto));
                EvLogCreate (length (messageLog w));
                EvTransmit jid (TextContent (lit "Halo"));
                EvLogUpdate (length (messageLog w)) status])
  /\ 1000 <= typingDuration (dto_message dto) <= 4000
  /\ (20 <= Z.of_nat (length (dto_message dto)) <= 80 ->
      typingDuration (dto_message dto)
      = Z.of_nat (length (dto_message dto)) * 50).
Proof.
  intros H w dto jid.
  apply (@typing_delay_order H dto None None w
           (sock_of (Some true) (Ok (Some (lit "3EB0"))))
           (TextContent (lit "Halo")));
    [reflexivity|intros _; reflexivity|reflexivity|reflexivity].
Defined.

(** C3 as stated fails: in the run of a plain text send the typing delay is
    the third effect and the creation of the PENDING row the fourth; the
    delay does not come after the creation. *)
Lemma typing_delay_precedes_log_counterexample :
  let w := world_of (sock_of (Some true) (Ok (Some (lit "3EB0")))) in
  let t := trace (@sendMessage (host_of [])
                    (dto_of "0812-3456" "Halo" None None) None None w).2 in
  event_index is_sleep t = Some 2%nat
  /\ event_index is_log_create t = Some 3%nat
  /\ event_index is_transmit t = Some 4%nat
  /\ ~ (exists i j, event_index is_log_create t = Some i
                    /\ event_index is_sleep t = Some j /\ (i < j)%nat).
Proof.
  vm_compute. repeat split.
  intros (i & j & [= <-] & [= <-] & Hlt). lia.
Qed.

(** C5: when the transmit call of a validated send throws, the exception
    does not leave [sendMessage]: the result is the failed result carrying
    the exception's message, and the table has exactly one more row, the one
    created for this attempt, with status FAILED.  The bulk loop never
    throws, and after any items it goes on with the remaining ones. *)
Theorem transmit_failure_is_recorded `{Host} (dto : SendMessageDto)
    (mediaFile : option MulterFile) (campaignId : option nat) (w : World)
    (sock : WASocket) (content : AnyMessageContent) (e : exn) :
  let jid := formatTo (dto_to dto) in
  clients w !! dto_sessionId dto = Some sock ->
  registered sock (dto_to dto) ->
  sendPresenceUpdate sock jid = Ok tt ->
  numbered_from 0 (messageLog w) = true ->
  resolve_content dto mediaFile (hasAttachment dto mediaFile) = Ok content ->
  sock_sendMessage sock jid content = Throw e ->
  (exists w' row,
     sendMessage dto mediaFile campaignId w
       = (Ok (SendFailed (exn_message e)), w')
     /\ messageLog w' = messageLog w ++ [row]
     /\ row = write_log FAILED None (pending_log w dto mediaFile campaignId)
     /\ log_status row = FAILED
     /\ log_id row = length (messageLog w))
  /\ (forall sessionId delay cid index done rest w0,
        (bulk_loop sessionId delay cid index (done ++ rest) w0).1 = Ok tt
        /\ bulk_loop sessionId delay cid index (done ++ rest) w0
           = bulk_loop sessionId delay cid (index + length done) rest
               (bulk_loop sessionId delay cid index done w0).2).
Proof.
  intros jid Hc Hreg Hp Hnum Hcontent Hthrow. split.
  - rewrite (sendMessage_run dto mediaFile campaignId w sock Hc Hreg Hp).
    cbn zeta. rewrite Hcontent. fold jid. rewrite Hthrow.
    do 2 eexists. split; [reflexivity|].
    split; [now apply settled_rows|]. repeat split.
  - intros. split; [apply bulk_loop_ok|apply bulk_loop_app].
Qed.

(** A client whose transmit call throws. *)
Lemma transmit_failure_is_recorded_witness :
  let H := host_of [] in
  let e := Error (lit "Connection Closed") in
  let w := world_of (sock_of (Some true) (Throw e)) in
  let dto := dto_of "0812-3456" "Halo" None None in
  exists w' row,
    sendMessage dto None None w = (Ok (SendFailed (exn_message e)), w')
    /\ messageLog w' = messageLog w ++ [row]
    /\ row = write_log FAILED None (pending_log w dto None None)
    /\ log_status row = FAILED
    /\ log_id row = length (messageLog w).
Proof.
  intros H e w dto.
  apply (@transmit_failure_is_recorded H dto None None w
           (sock_of (Some true) (Throw e)) (TextContent (lit "Halo")) e);
    [reflexivity|intros _; reflexivity|reflexivity|reflexivity|reflexivity
    |reflexivity].
Defined.

(** C10: whenever [sendMessage] reports success, the data of the result is
    the row object as it was created, with status PENDING and no protocol
    message id, while the row stored under the same id has status SENT (and,
    with ids numbered, is the last row, carrying the message id the transmit
    call returned).  A validated send whose transmit call returns does
    report success. *)
Theorem success_returns_creation_snapshot `{Host} (dto : SendMessageDto)
    (mediaFile : option MulterFile) (campaignId : option nat) (w : World) :
  (forall data w',
     sendMessage dto mediaFile campaignId w = (Ok (SendSuccess data), w') ->
     log_status data = PENDING /\ log_waMessageId data = None
     /\ exists row, In row (messageLog w') /\ log_id row = log_id data
                    /\ log_status row = SENT)
  /\ (forall sock content waMessageId,
        clients w !! dto_sessionId dto = Some sock ->
        registered sock (dto_to dto) ->
        sendPresenceUpdate sock (formatTo (dto_to dto)) = Ok tt ->
        numbered_from 0 (messageLog w) = true ->
        resolve_content dto mediaFile (hasAttachment dto mediaFile)
          = Ok content ->
        sock_sendMessage sock (formatTo (dto_to dto)) content
          = Ok waMessageId ->
        exists data w' row,
          sendMessage dto mediaFile campaignId w = (Ok (SendSuccess data), w')
          /\ log_status data = PENDING /\ log_waMessageId data = None
          /\ messageLog w' = messageLog w ++ [row]
          /\ log_id row = log_id data
          /\ log_status row = SENT /\ log_waMessageId row = waMessageId).
Proof.
  split.
  - intros data w' Hrun.
    apply sendMessage_success_inv in Hrun
      as (sock & content & mid & Hc & Hcontent & Hsent & -> & ->).
    repeat split.
    exists (write_log SENT mid (pending_log w dto mediaFile campaignId)).
    repeat split. unfold settled. simpl. rewrite List.map_app. simpl.
    apply List.in_or_app. right. left. now rewrite decide_True.
  - intros sock content mid Hc Hreg Hp Hnum Hcontent Hsent.
    rewrite (sendMessage_run dto mediaFile campaignId w sock Hc Hreg Hp).
    cbn zeta. rewrite Hcontent, Hsent.
    do 3 eexists. split; [reflexivity|].
    do 2 (split; [reflexivity|]). split; [now apply settled_rows|].
    repeat split. now destruct mid.
Qed.

(** A client whose transmit call returns the id 3EB0. *)
Lemma success_returns_creation_snapshot_witness :
  let H := host_of [] in
  let w := world_of (sock_of (Some true) (Ok (Some (lit "3EB0")))) in
  let dto := dto_of "0812-3456" "Halo" None None in
  exists data w' row,
    sendMessage dto None None w = (Ok (SendSuccess data), w')
    /\ log_status data = PENDING /\ log_waMessageId data = None
    /\ messageLog w' = messageLog w ++ [row]
    /\ log_id row = log_id data
    /\ log_status row = SENT /\ log_waMessageId row = Some (lit "3EB0").
Proof.
  intros H w dto.
  apply (proj2 (@success_returns_creation_snapshot H dto None None w)
           (sock_of (Some true) (Ok (Some (lit "3EB0"))))
           (TextContent (lit "Halo")) (Some (lit "3EB0")));
    [reflexivity|intros _; reflexivity|reflexivity|reflexivity|reflexivity
    |reflexivity].
Defined.

(** ** The campaign scheduler *)



(** ** Text variation: the scan and appended zero-width characters *)

Arguments match_at : simpl never.

Lemma ci_match_non_ascii (p c : N) : non_ascii c = true -> ci_match p c = false.
Proof.
  unfold non_ascii, ci_match. intros Hc. apply N.leb_le in Hc.
  apply andb_false_iff. left. apply N.ltb_ge. exact Hc.
Qed.

Lemma IsWordChar_non_ascii (c : N) : non_ascii c = true -> IsWordChar c = false.
Proof.
  unfold non_ascii, IsWordChar, is_digit, is_upper, is_lower.
  intros Hc. apply N.leb_le in Hc.
  repeat match goal with
         | |- context [(?a <=? ?b)%N] => destruct (N.leb_spec a b)
         | |- context [(?a =? ?b)%N] => destruct (N.eqb_spec a b)
         end; simpl; try reflexivity; lia.
Qed.

Lemma is_word_head_app (s zs : jsstring) :
  Forall (fun z => non_ascii z = true) zs ->
  is_word (head (s ++ zs)) = is_word (head s).
Proof.
  intros Hzs. destruct s as [|c s]; [|reflexivity]. simpl.
  destruct Hzs as [|z zs Hz _]; [reflexivity|]. simpl.
  now apply IsWordChar_non_ascii.
Qed.

Lemma prefix_ci_app (pat s zs : jsstring) :
  Forall (fun z => non_ascii z = true) zs ->
  prefix_ci pat (s ++ zs) = prefix_ci pat s.
Proof.
  intros Hzs. revert s. induction pat as [|p pat IH]; intros s.
  - now destruct (s ++ zs), s.
  - destruct s as [|c s]; simpl.
    + destruct Hzs as [|z zs Hz _]; [reflexivity|].
      simpl. now rewrite ci_match_non_ascii.
    + now rewrite IH.
Qed.

Lemma prefix_ci_length (pat s : jsstring) :
  prefix_ci pat s = true -> (length pat <= length s)%nat.
Proof.
  revert s. induction pat as [|p pat IH]; intros s; simpl; [lia|].
  destruct s as [|c s]; [discriminate|]. simpl.
  intros Hm. apply andb_true_iff in Hm as [_ Hm]. apply IH in Hm. lia.
Qed.

Lemma match_at_app (wb : bool) (pat : jsstring) (prev : option N) (c : N)
    (s zs : jsstring) :
  Forall (fun z => non_ascii z = true) zs ->
  match_at wb pat prev ((c :: s) ++ zs) = match_at wb pat prev (c :: s).
Proof.
  intros Hzs. unfold match_at. rewrite prefix_ci_app by exact Hzs.
  destruct (prefix_ci pat (c :: s)) eqn:Hm.
  - apply prefix_ci_length in Hm.
    rewrite take_app_le, drop_app_le by exact Hm.
    destruct wb; [|reflexivity]. unfold boundary.
    now rewrite (is_word_head_app (drop (length pat) (c :: s)) zs Hzs).
  - now rewrite !andb_false_r.
Qed.

Lemma replace_ci_inert (wb : bool) (p : N) (pat : jsstring)
    (fn : jsstring -> Rand jsstring) (prev : option N) (zs : jsstring)
    (i : nat) :
  Forall (fun z => non_ascii z = true) zs ->
  replace_ci wb (p :: pat) fn prev O zs i = (zs, i).
Proof.
  intros Hzs. revert prev. induction Hzs as [|z zs Hz _ IH]; intros prev.
  - reflexivity.
  - simpl.
    assert (Hno : match_at wb (p :: pat) prev (z :: zs) = false).
    { unfold match_at. simpl. rewrite ci_match_non_ascii by exact Hz.
      now rewrite andb_false_r. }
    rewrite Hno. rand_unfold. now rewrite IH.
Qed.

(** Appending zero-width characters to the text changes neither the matches
    nor the draws of a scan: they come out appended to the result. *)
Lemma replace_ci_app (wb : bool) (p : N) (pat : jsstring)
    (fn : jsstring -> Rand jsstring) (prev : option N) (skip : nat)
    (s zs : jsstring) (i : nat) :
  Forall (fun z => non_ascii z = true) zs ->
  (skip <= length s)%nat ->
  replace_ci wb (p :: pat) fn prev skip (s ++ zs) i
  = ((replace_ci wb (p :: pat) fn prev skip s i).1 ++ zs,
     (replace_ci wb (p :: pat) fn prev skip s i).2).
Proof.
  intros Hzs. revert prev skip i.
  induction s as [|c s IH]; intros prev skip i Hskip.
  - simpl in Hskip. replace skip with O by lia. simpl.
    now apply replace_ci_inert.
  - change ((c :: s) ++ zs) with (c :: (s ++ zs)).
    cbn [replace_ci]. destruct skip as [|k].
    + change (c :: (s ++ zs)) with ((c :: s) ++ zs).
      rewrite match_at_app by exact Hzs.
      destruct (match_at wb (p :: pat) prev (c :: s)) eqn:Hm.
      * assert (Hlen : (length (p :: pat) <= length (c :: s))%nat).
        { apply prefix_ci_length. unfold match_at in Hm.
          apply andb_true_iff in Hm as [Hm _].
          now apply andb_true_iff in Hm as [_ Hm]. }
        rewrite take_app_le by exact Hlen. rand_unfold.
        destruct (fn (take (length (p :: pat)) (c :: s)) i) as [out j].
        simpl in Hlen. rewrite IH by (simpl; lia). simpl.
        destruct (replace_ci wb (p :: pat) fn (Some c) (length pat) s j)
          as [rest j'].
        simpl. now rewrite <- app_assoc.
      * rand_unfold. rewrite IH by lia.
        now destruct (replace_ci wb (p :: pat) fn (Some c) 0 s i).
    + simpl in Hskip. rewrite IH by lia. reflexivity.
Qed.


(** ** Text variation: the stages *)

Lemma zero_width_inert (k : nat) :
  Forall (fun z => non_ascii z = true) (replicate k zeroWidthSpace).
Proof. induction k; simpl; constructor; [reflexivity|assumption]. Qed.

Lemma slang_passes_app `{Host} (table : list (jsstring * list jsstring))
    (s zs : jsstring) (i : nat) :
  Forall (fun entry => entry.1 <> []) table ->
  Forall (fun z => non_ascii z = true) zs ->
  slang_passes table (s ++ zs) i
  = ((slang_passes table s i).1 ++ zs, (slang_passes table s i).2).
Proof.
  intros Htable Hzs. revert s i.
  induction Htable as [|[word variations] table Hword _ IH]; intros s i.
  - reflexivity.
  - simpl in Hword. destruct word as [|p word]; [congruence|].
    cbn [slang_passes]. rand_unfold.
    rewrite replace_ci_app by (exact Hzs || (simpl; lia)).
    destruct (replace_ci true (p :: word) (slang_pick variations) None 0 s i)
      as [s' j].
    apply IH.
Qed.

Lemma replacements_nonempty : Forall (fun entry => entry.1 <> []) replacements.
Proof. repeat constructor; discriminate. Qed.

Lemma applyIndonesianSlang_app `{Host} (s : jsstring) (k i : nat) :
  applyIndonesianSlang (s ++ replicate k zeroWidthSpace) i
  = ((applyIndonesianSlang s i).1 ++ replicate k zeroWidthSpace,
     (applyIndonesianSlang s i).2).
Proof.
  apply slang_passes_app; [apply replacements_nonempty|apply zero_width_inert].
Qed.










(** ** Claims on the text variation pipeline *)

(** The suffix can be read as appended last: zero-width characters at the
    end of the text do not change what the slang scan finds. *)
Lemma processor_suffix_after_slang `{Host} (rawText : jsstring) (i : nat) :
  processor rawText i
  = (txt ← getTimeBasedGreeting rawText;
     txt ← processSpintax txt;
     r ← random;
     txt ← applyIndonesianSlang txt;
     mret (txt ++ replicate (Z.to_nat (floor_mul r 10 + 1))
                    zeroWidthSpace)) i.
Proof.
  unfold processor, addInvisibleUnique. rand_unfold.
  destruct (getTimeBasedGreeting rawText i) as [t1 i1].
  destruct (processSpintax t1 i1) as [t2 i2].
  rewrite applyIndonesianSlang_app.
  now destruct (applyIndonesianSlang t2 (S i2)).
Qed.

Lemma suffix_count_range (r : Q) :
  valid_draw r -> 1 <= floor_mul r 10 + 1 <= 10.
Proof. intros Hr. pose proof (floor_mul_range r 10 Hr). lia. Qed.

(** C4, the stage order of the code: greeting substitution, then spintax
    expansion, then the uniqueness suffix, then slang substitution last.  As
    the suffix characters are no word characters, the result is the slang
    substitution of the expanded text followed by the suffix, the count of
    the suffix being drawn before the slang draws; the count is between 1
    and 10. *)
Theorem processor_stage_order `{Host} (rawText : jsstring) (i : nat) :
  processor rawText i
  = (txt ← getTimeBasedGreeting rawText;
     txt ← processSpintax txt;
     txt ← addInvisibleUnique txt;
     applyIndonesianSlang txt) i
  /\ processor rawText i
     = (txt ← getTimeBasedGreeting rawText;
        txt ← processSpintax txt;
        r ← random;
        txt ← applyIndonesianSlang txt;
        mret (txt ++ replicate (Z.to_nat (floor_mul r 10 + 1))
                       zeroWidthSpace)) i
  /\ (forall r, valid_draw r -> 1 <= floor_mul r 10 + 1 <= 10).
Proof.
  split; [|split].
  - unfold processor. rand_unfold.
    destruct (getTimeBasedGreeting rawText i) as [t1 i1].
    destruct (processSpintax t1 i1) as [t2 i2].
    destruct (addInvisibleUnique t2 i2) as [t3 i3].
    now destruct (applyIndonesianSlang t3 i3).
  - apply processor_suffix_after_slang.
  - apply suffix_count_range.
Qed.

(** The template yang at the draws 0, 0.9, 0, 0. *)
Lemma processor_stage_order_witness :
  let H := host_of [0; (9 # 10); 0; 0]%Q in
  processor (lit "yang") 0%nat
  = (txt ← getTimeBasedGreeting (lit "yang");
     txt ← processSpintax txt;
     r ← random;
     txt ← applyIndonesianSlang txt;
     mret (txt ++ replicate (Z.to_nat (floor_mul r 10 + 1))
                    zeroWidthSpace)) 0%nat
  /\ 1 <= floor_mul (9 # 10) 10 + 1 <= 10.
Proof.
  intros H. split.
  - apply (proj1 (proj2 (@processor_stage_order H (lit "yang") 0%nat))).
  - apply (proj2 (proj2 (@processor_stage_order H (lit "yang") 0%nat))).
    split; [unfold Qle | unfold Qlt]; simpl; lia.
Defined.

(** C4 as stated fails: with the draws 0, 0.9, 0, 0 the code turns yang
    into yg followed by ten zero-width characters, while the order greeting,
    spintax, slang, suffix gives yang followed by one. *)
Lemma processor_stage_order_counterexample :
  let H := host_of [0; (9 # 10); 0; 0]%Q in
  (processor (lit "yang") 0%nat).1 = lit "yg" ++ replicate 10 zeroWidthSpace
  /\ (processor_spec_order (lit "yang") 0%nat).1
     = lit "yang" ++ replicate 1 zeroWidthSpace
  /\ processor (lit "yang") 0%nat <> processor_spec_order (lit "yang") 0%nat.
Proof. vm_compute. repeat split. discriminate. Qed.




(** ** Two checks of the model against the documented scenarios *)

(** A group of two alternatives resolves to exactly one of them. *)
Lemma spintax_resolves_one_alternative `{Host} (i : nat) :
  valid_draw (MathRandom i) ->
  processSpintax (lit "{a|b}") i = (lit "a", S i)
  \/ processSpintax (lit "{a|b}") i = (lit "b", S i).
Proof.
  intros Hr. pose proof (floor_mul_range _ 2 Hr) as Hidx.
  assert (Hrun : processSpintax (lit "{a|b}") i
                 = (js_index [lit "a"; lit "b"] (floor_mul (MathRandom i) 2),
                    S i)).
  { unfold processSpintax. change (lit "{a|b}") with [123; 97; 124; 98; 125]%N.
    cbn [spintax_from]. change (spintax_group [123; 97; 124; 98; 125]%N)
      with (Some [97; 124; 98]%N).
    rand_unfold. cbn. rewrite app_nil_r. reflexivity. }
  rewrite Hrun.
  assert (Hcase : floor_mul (MathRandom i) 2 = 0 \/ floor_mul (MathRandom i) 2 = 1)
    by lia.
  destruct Hcase as [-> | ->]; [left|right]; reflexivity.
Qed.

(** Three recipients and the delay range 1-1: the launched task leaves three
    rows, all of the one new campaign, and pauses one second twice (the other
    delays are the typing delays of the three sends). *)
Lemma bulk_three_recipients :
  let H := host_of [(1 # 10); (6 # 10); (3 # 10); (2 # 10); (7 # 10)]%Q in
  let item to :=
    {| item_to := lit to; item_message := lit "Halo {{salam}}, {promo|diskon}";
       item_file := None; item_mediaType := None; item_fileName := None |} in
  let dto := {| bulk_sessionId := "s1"%string;
                bulk_data := [item "0811"; item "0812"; item "0813"];
                bulk_delay := lit "1-1"; bulk_title := lit "Promo" |} in
  let w1 := (sendBulkMessage dto
               (world_of (sock_of (Some true) (Ok (Some (lit "3EB0")))))).2 in
  let w2 := (bulk_loop "s1" (lit "1-1") 0 0 (bulk_data dto) w1).2 in
  background w1
    = [{| task_sessionId := "s1"%string; task_data := bulk_data dto;
          task_delay := lit "1-1"; task_campaignId := 0 |}]
  /\ log_campaignId <$> messageLog w2 = [Some 0; Some 0; Some 0]%nat
  /\ log_status <$> messageLog w2 = [SENT; SENT; SENT]
  /\ count_occ Z.eq_dec
       (omap (fun ev => match ev with EvSleep ms => Some ms | _ => None end)
             (trace w2)) 1000
     = 2%nat.
Proof. vm_compute. repeat split. Qed.
